(** * finance-api: the transaction request handlers of [server.js]

    A shallow embedding of the five Express handlers of [server.js]
    (list, get, create, update, delete) together with the JavaScript
    built-ins they call ([!id], [parseFloat], [new Date]) and the two
    external collaborators they rely on (the driver's [ObjectId.isValid]
    and the Prisma client), followed by the properties of the
    specification proved about them. *)

From Stdlib Require Import ZArith Ascii String Lia.
From stdpp Require Import base strings list gmap sorting.

Set Warnings "-register-all".

Open Scope Z_scope.

(** ** JavaScript values *)

(** An IEEE-754 double: not-a-number, an infinity, or the finite value
    [(-1)^neg * m * 2^e].  Zero is any [Finite _ 0 _]. *)
Inductive JsNumber : Type :=
| NaN
| Infinity (neg : bool)
| Finite (neg : bool) (m : N) (e : Z).

(** What a parsed JSON body can hold, plus [undefined] for a key that is
    not there.  Strings are sequences of code units below 256. *)
Inductive JsValue : Type :=
| JUndefined
| JNull
| JBool (b : bool)
| JNum (n : JsNumber)
| JStr (s : string)
| JArr (items : list JsValue)
| JObj (fields : list (string * JsValue)).

(** A [Date] object: its time value in milliseconds since the epoch, or
    the invalid date (time value NaN). *)
Inductive JsDate : Type :=
| InvalidDate
| TimeValue (ms : Z).

(** A thrown value, as far as the handlers look at it: [error.code]. *)
Record JsError : Type := mkError { code : option string }.

(** The outcome of evaluating something that may throw. *)
Inductive Completion (A : Type) : Type :=
| Normal (a : A)
| Throw (e : JsError).
Arguments Normal {A} a.
Arguments Throw {A} e.

(** A [TypeError] thrown by a built-in; it has no [code]. *)
Definition TypeError : JsError := mkError None.

Definition is_finite (n : JsNumber) : bool :=
  match n with Finite _ _ _ => true | _ => false end.

Definition is_valid_date (d : JsDate) : bool :=
  match d with TimeValue _ => true | InvalidDate => false end.

(** [ToBoolean]: the test behind [!id]. *)
Definition ToBoolean (v : JsValue) : bool :=
  match v with
  | JUndefined | JNull => false
  | JBool b => b
  | JNum NaN => false
  | JNum (Infinity _) => true
  | JNum (Finite _ m _) => negb (N.eqb m 0)
  | JStr s => negb (String.eqb s "")
  | JArr _ | JObj _ => true
  end.

(** Converting a value to a primitive throws a [TypeError] when no
    conversion method gives one.  For a value parsed from JSON that is the
    case of an object with an own [toString] key (no JSON value is callable,
    and the inherited [valueOf] gives the object back), and of an array with
    such an object among its elements, since [join] converts every element.
    Both [ToString(v)] and the [ToPrimitive(v)] of [new Date(v)] throw on
    exactly these values. *)
Fixpoint ToPrimitive_throws (v : JsValue) : bool :=
  match v with
  | JObj fields => existsb (fun kv => String.eqb (fst kv) "toString") fields
  | JArr items => existsb ToPrimitive_throws items
  | _ => false
  end.

(** ** Characters *)

Definition char_code (a : ascii) : Z := Z.of_N (N_of_ascii a).

Definition in_range (lo hi : Z) (a : ascii) : bool :=
  (lo <=? char_code a) && (char_code a <=? hi).

Definition is_digit (a : ascii) : bool := in_range 48 57 a.

Definition is_hex_digit (a : ascii) : bool :=
  is_digit a || in_range 97 102 a || in_range 65 70 a.

(** WhiteSpace and LineTerminator code units below 256: TAB, LF, VT, FF,
    CR, SP and NBSP. *)
Definition is_white_space (a : ascii) : bool :=
  in_range 9 13 a || (char_code a =? 32) || (char_code a =? 160).

Definition digit_value (a : ascii) : Z := char_code a - 48.

(** ** [parseFloat] *)

Fixpoint trim_start (s : string) : string :=
  match s with
  | String a r => if is_white_space a then trim_start r else s
  | EmptyString => EmptyString
  end.

(** The longest run of decimal digits at the head of [s], and the rest. *)
Fixpoint take_digits (s : string) : list Z * string :=
  match s with
  | String a r =>
      if is_digit a
      then let '(ds, rest) := take_digits r in (digit_value a :: ds, rest)
      else ([], s)
  | EmptyString => ([], EmptyString)
  end.

Definition digits_number (ds : list Z) : Z :=
  fold_left (fun acc d => 10 * acc + d) ds 0.

Definition strip_sign (s : string) : bool * string :=
  match s with
  | String "-" r => (true, r)
  | String "+" r => (false, r)
  | _ => (false, s)
  end.

(** ExponentPart, when a complete one follows; otherwise exponent 0. *)
Definition parse_exponent (s : string) : Z :=
  match s with
  | String c r =>
      if (char_code c =? 101) || (char_code c =? 69)
      then
        let '(neg, r') := strip_sign r in
        let '(ds, _) := take_digits r' in
        match ds with
        | [] => 0
        | _ => if neg then - digits_number ds else digits_number ds
        end
      else 0
  | EmptyString => 0
  end.

(** The double nearest to the positive rational [n / d], ties to even. *)
Definition round_double (neg : bool) (n d : Z) : JsNumber :=
  let e0 := Z.log2 n - Z.log2 d in
  let e := if d * 2 ^ Z.max 0 e0 <=? n * 2 ^ Z.max 0 (- e0)
           then e0 else e0 - 1 in
  let q := Z.max e (-1022) - 52 in
  let num := n * 2 ^ Z.max 0 (- q) in
  let den := d * 2 ^ Z.max 0 q in
  let m0 := num / den in
  let r := num mod den in
  let m := if den <? 2 * r then m0 + 1
           else if 2 * r =? den then (if Z.even m0 then m0 else m0 + 1)
           else m0 in
  if 1024 <=? Z.log2 m + q then Infinity neg else Finite neg (Z.to_N m) q.

(** The Number value of the decimal [digits * 10^exp10]. *)
Definition Number_of_decimal (neg : bool) (digits exp10 : Z) : JsNumber :=
  if digits =? 0 then Finite neg 0 0
  else if 0 <=? exp10 then round_double neg (digits * 10 ^ exp10) 1
  else round_double neg digits (10 ^ (- exp10)).

Definition starts_with (p s : string) : bool :=
  String.eqb (substring 0 (String.length p) s) p.

(** [parseFloat] on a string: skip leading white space, then the value
    of the longest prefix that is a StrDecimalLiteral, or NaN. *)
Definition parseFloat_string (s : string) : JsNumber :=
  let '(neg, s1) := strip_sign (trim_start s) in
  if starts_with "Infinity" s1 then Infinity neg
  else
    let '(ip, s2) := take_digits s1 in
    let '(fp, s3) := match s2 with
                     | String "." r => take_digits r
                     | _ => ([], s2)
                     end in
    match ip, fp with
    | [], [] => NaN
    | _, _ =>
        Number_of_decimal neg (digits_number (ip ++ fp))
          (parse_exponent s3 - Z.of_nat (length fp))
    end.

(** The value of [parseFloat(v)], which is [parseFloat_string (ToString v)],
    for a [v] whose [ToString] completes.  For a number the string form reads
    back as the number itself (with [-0] printed as ["0"]); an object prints
    as ["[object Object]"]; an array prints its elements joined by commas, so
    that only the first element can contribute a numeric prefix. *)
Fixpoint parseFloat_result (v : JsValue) : JsNumber :=
  match v with
  | JUndefined | JNull | JBool _ | JObj _ => NaN
  | JNum (Finite neg 0%N _) => Finite false 0 0
  | JNum n => n
  | JStr s => parseFloat_string s
  | JArr [] => NaN
  | JArr (x :: _) =>
      match x with
      | JUndefined | JNull => NaN
      | _ => parseFloat_result x
      end
  end.

(** [parseFloat(v)]: [ToString(v)] comes first, and may throw. *)
Definition parseFloat (v : JsValue) : Completion JsNumber :=
  if ToPrimitive_throws v then Throw TypeError
  else Normal (parseFloat_result v).

(** ** [new Date] *)

(** TimeClip of a Number. *)
Definition TimeClip (n : JsNumber) : JsDate :=
  match n with
  | NaN | Infinity _ => InvalidDate
  | Finite neg m e =>
      let num := Z.of_N m * 2 ^ Z.max 0 e in
      let den := 2 ^ Z.max 0 (- e) in
      if 8640000000000000 * den <? num then InvalidDate
      else TimeValue (if neg then - (num / den) else num / den)
  end.

(** Exactly [k] decimal digits at the head of [s]. *)
Fixpoint read_digits (k : nat) (acc : Z) (s : string) : option (Z * string) :=
  match k with
  | O => Some (acc, s)
  | S k' =>
      match s with
      | String a r =>
          if is_digit a then read_digits k' (10 * acc + digit_value a) r
          else None
      | EmptyString => None
      end
  end.

Definition expect (c : ascii) (s : string) : option string :=
  match s with
  | String a r => if Ascii.eqb a c then Some r else None
  | EmptyString => None
  end.

Definition is_leap_year (y : Z) : bool :=
  ((y mod 4 =? 0) && negb (y mod 100 =? 0)) || (y mod 400 =? 0).

Definition days_in_month (y m : Z) : Z :=
  if m =? 2 then (if is_leap_year y then 29 else 28)
  else if (m =? 4) || (m =? 6) || (m =? 9) || (m =? 11) then 30
  else 31.

(** Days from 1970-01-01 to the civil date [y-m-d]. *)
Definition days_from_civil (y m d : Z) : Z :=
  let y' := if m <=? 2 then y - 1 else y in
  let era := y' / 400 in
  let yoe := y' - era * 400 in
  let mp := if 2 <? m then m - 3 else m + 9 in
  let doy := (153 * mp + 2) / 5 + d - 1 in
  let doe := yoe * 365 + yoe / 4 - yoe / 100 + doy in
  era * 146097 + doe - 719468.

(** The time of day [HH:mm:ss] or [HH:mm:ss.sss], then [Z]. *)
Definition parse_utc_time (s : string) : option Z :=
  '(h, s) ← read_digits 2 0 s;
  s ← expect ":" s;
  '(mi, s) ← read_digits 2 0 s;
  s ← expect ":" s;
  '(sec, s) ← read_digits 2 0 s;
  '(ms, s) ← match s with
             | String "." r => read_digits 3 0 r
             | _ => Some (0, s)
             end;
  if (h <=? 23) && (mi <=? 59) && (sec <=? 59) && String.eqb s "Z"
  then Some (((h * 60 + mi) * 60 + sec) * 1000 + ms)
  else None.

(** The part of the Date Time String Format whose reading is the same on
    every host: [YYYY-MM-DD] (UTC midnight) and [YYYY-MM-DDTHH:mm:ss(.sss)Z],
    with every field in range. *)
Definition parse_iso_utc (s : string) : option Z :=
  '(y, s) ← read_digits 4 0 s;
  s ← expect "-" s;
  '(mo, s) ← read_digits 2 0 s;
  s ← expect "-" s;
  '(d, s) ← read_digits 2 0 s;
  if (1 <=? mo) && (mo <=? 12) && (1 <=? d) && (d <=? days_in_month y mo)
  then
    let day := days_from_civil y mo d * 86400000 in
    match s with
    | EmptyString => Some day
    | String "T" r => t ← parse_utc_time r; Some (day + t)
    | _ => None
    end
  else None.

(** What the language leaves to the host: the time value [new Date] gives
    for a string outside the forms above (local times, legacy formats) and
    for the string form of an array or object (which goes through the host's
    number printing). *)
Class Host : Type := { host_new_Date : JsValue → JsDate }.

Definition newDate_result `{Host} (v : JsValue) : JsDate :=
  match v with
  | JUndefined => InvalidDate
  | JNull => TimeValue 0
  | JBool b => TimeValue (if b then 1 else 0)
  | JNum n => TimeClip n
  | JStr s =>
      match parse_iso_utc s with
      | Some t => TimeValue t
      | None => host_new_Date v
      end
  | JArr _ | JObj _ => host_new_Date v
  end.

(** [new Date(v)]: [ToPrimitive(v)] comes first, and may throw; the rest
    is [newDate_result]. *)
Definition newDate `{Host} (v : JsValue) : Completion JsDate :=
  if ToPrimitive_throws v then Throw TypeError
  else Normal (newDate_result v).

(** A host that recognises nothing beyond the common format. *)
Definition strict_host : Host := {| host_new_Date := fun _ => InvalidDate |}.

(** ** The persistence collaborator *)

(** Modelled from the spec: the Prisma schema of the repository is not
    part of [server.js].  The spec's data model gives the stored entity: an
    identifier, a floating-point amount, a timestamp and a free-form
    description. *)
Record Transaction : Type := mkTransaction {
  tx_id : string;
  tx_amount : JsNumber;
  tx_date : JsDate;
  tx_description : JsValue
}.

(** The [data] object of [create] and [update]. *)
Record TxData : Type := mkData {
  data_amount : JsNumber;
  data_date : JsDate;
  data_description : JsValue
}.

(** The calls a handler can issue to the Prisma client. *)
Inductive PrismaCall : Type :=
| FindMany
| FindUnique (where_id : string)
| Create (id : JsValue) (data : TxData)
| Update (where_id : string) (data : TxData)
| Delete (where_id : string).

(** The world a handler runs in: the stored documents in insertion order,
    whether the store can be reached, and the calls issued so far. *)
Record World : Type := mkWorld {
  records : list Transaction;
  online : bool;
  calls : list PrismaCall
}.

(** An [async] computation: it runs on the world, and its promise either
    fulfils or rejects. *)
Definition Async (A : Type) : Type := World → Completion A * World.

Definition ret {A} (a : A) : Async A := fun w => (Normal a, w).

Definition bind {A B} (m : Async A) (k : A → Async B) : Async B :=
  fun w =>
    match m w with
    | (Normal a, w') => k a w'
    | (Throw e, w') => (Throw e, w')
    end.

(** [try { body } catch (error) { handler }] *)
Definition try_catch {A} (body : Async A) (handler : JsError → Async A)
  : Async A :=
  fun w =>
    match body w with
    | (Normal a, w') => (Normal a, w')
    | (Throw e, w') => handler e w'
    end.

Notation "'await' x ':=' m 'in' k" := (bind m (fun x => k))
  (at level 10, x name, m at level 100, k at level 200,
   format "'[v' 'await'  x  ':='  m  'in' '/' k ']'").

(** A synchronous expression inside an [async] function: its completion,
    with the world untouched. *)
Definition completion {A} (c : Completion A) : Async A := fun w => (c, w).

Notation "'const' x ':=' c 'in' k" := (bind (completion c) (fun x => k))
  (at level 10, x name, c at level 100, k at level 200,
   format "'[v' 'const'  x  ':='  c  'in' '/' k ']'").

Definition with_records (rs : list Transaction) (w : World) : World :=
  {| records := rs; online := online w; calls := calls w |}.

Definition issue (c : PrismaCall) (w : World) : World :=
  {| records := records w; online := online w; calls := calls w ++ [c] |}.

Definition has_code (c : string) (e : JsError) : bool :=
  match code e with
  | Some c' => String.eqb c' c
  | None => false
  end.

(** The errors of the client: unique constraint failed, record not found,
    database unreachable, and a data argument of the wrong type. *)
Definition P2002 : JsError := mkError (Some "P2002").
Definition P2025 : JsError := mkError (Some "P2025").
Definition P1001 : JsError := mkError (Some "P1001").
Definition ValidationError : JsError := mkError None.

Fixpoint find_record (id : string) (rs : list Transaction)
  : option Transaction :=
  match rs with
  | [] => None
  | t :: rs' => if String.eqb (tx_id t) id then Some t else find_record id rs'
  end.

Fixpoint replace_record (id : string) (t' : Transaction)
  (rs : list Transaction) : list Transaction :=
  match rs with
  | [] => []
  | t :: rs' =>
      if String.eqb (tx_id t) id then t' :: rs'
      else t :: replace_record id t' rs'
  end.

Fixpoint remove_record (id : string) (rs : list Transaction)
  : list Transaction :=
  match rs with
  | [] => []
  | t :: rs' =>
      if String.eqb (tx_id t) id then rs' else t :: remove_record id rs'
  end.

(** The order of [orderBy: { date: 'desc' }]: later dates first.  A
    document without a valid date is placed after all the others. *)
Definition date_leb (d1 d2 : JsDate) : bool :=
  match d1, d2 with
  | InvalidDate, _ => true
  | TimeValue _, InvalidDate => false
  | TimeValue x, TimeValue y => x <=? y
  end.

Definition date_desc (a b : Transaction) : Prop :=
  date_leb (tx_date b) (tx_date a) = true.

#[global] Instance date_desc_dec a b : Decision (date_desc a b).
Proof. unfold date_desc. apply _. Defined.

(** Modelled from the spec: the Prisma client is an external
    collaborator.  Each operation is one call; it fails when the store is
    unreachable, and otherwise does what section 4.1 says of it. *)

(** [prisma.transaction.findMany({ orderBy: { date: 'desc' } })] *)
Definition prisma_findMany_orderBy_date_desc : Async (list Transaction) :=
  fun w =>
    let w' := issue FindMany w in
    if online w then (Normal (merge_sort date_desc (records w)), w')
    else (Throw P1001, w').

(** [prisma.transaction.findUnique({ where: { id } })]: the document, or
    [null]. *)
Definition prisma_findUnique (id : string) : Async (option Transaction) :=
  fun w =>
    let w' := issue (FindUnique id) w in
    if online w then (Normal (find_record id (records w)), w')
    else (Throw P1001, w').

(** [prisma.transaction.create({ data })]: insert, enforcing uniqueness
    of the identifier. *)
Definition prisma_create (id : JsValue) (data : TxData) : Async Transaction :=
  fun w =>
    let w' := issue (Create id data) w in
    if online w then
      match id with
      | JStr s =>
          match find_record s (records w) with
          | Some _ => (Throw P2002, w')
          | None =>
              let t := mkTransaction s (data_amount data) (data_date data)
                         (data_description data) in
              (Normal t, with_records (records w ++ [t]) w')
          end
      | _ => (Throw ValidationError, w')
      end
    else (Throw P1001, w').

(** [prisma.transaction.update({ where: { id }, data })]: replace the
    mutable fields of the matching document. *)
Definition prisma_update (id : string) (data : TxData) : Async Transaction :=
  fun w =>
    let w' := issue (Update id data) w in
    if online w then
      match find_record id (records w) with
      | None => (Throw P2025, w')
      | Some old =>
          let t := mkTransaction (tx_id old) (data_amount data)
                     (data_date data) (data_description data) in
          (Normal t, with_records (replace_record id t (records w)) w')
      end
    else (Throw P1001, w').

(** [prisma.transaction.delete({ where: { id } })]: remove the matching
    document. *)
Definition prisma_delete (id : string) : Async Transaction :=
  fun w =>
    let w' := issue (Delete id) w in
    if online w then
      match find_record id (records w) with
      | None => (Throw P2025, w')
      | Some old => (Normal old, with_records (remove_record id (records w)) w')
      end
    else (Throw P1001, w').

(** ** Identifier validation *)

Definition is_hex24 (s : string) : bool :=
  (Z.of_nat (String.length s) =? 24)
  && forallb is_hex_digit (list_ascii_of_string s).

(** Modelled from the spec: [ObjectId.isValid] belongs to the database
    driver.  The spec's identifier format is a 24-character hexadecimal
    string; nothing else is an identifier. *)
Definition ObjectId_isValid (id : JsValue) : Completion bool :=
  match id with
  | JStr s => Normal (is_hex24 s)
  | _ => Normal false
  end.

(** [isValidObjectId] of [server.js]. *)
Definition isValidObjectId (id : JsValue) : bool :=
  match ObjectId_isValid id with
  | Normal b => b
  | Throw _ => false
  end.

(** ** Requests and responses *)

(** What the handlers read of [req]: the [:id] segment of the path, always
    a string, and the JSON object the body parser left in [req.body] (the
    empty object when the request has no body). *)
Record Request : Type := mkRequest {
  params_id : string;
  body : gmap string JsValue
}.

(** A property of [req.body]; [undefined] when the key is absent. *)
Definition field (b : gmap string JsValue) (k : string) : JsValue :=
  default JUndefined (b !! k).

Inductive Json : Type :=
| ErrorJson (error : string)
| MessageJson (message : string)
| TransactionJson (t : Transaction)
| TransactionsJson (ts : list Transaction).

Record Response : Type := mkResponse {
  status : Z;
  json : Json
}.

(** [res.json(x)] (status 200) and [res.status(n).json(x)]. *)
Definition res_json (x : Json) : Async Response := ret (mkResponse 200 x).
Definition res_status_json (n : Z) (x : Json) : Async Response :=
  ret (mkResponse n x).

(** ** The handlers *)

(** Each handler is the [try]/[catch] of the source, with [await] for the
    one Prisma call it makes.  The arguments of that call are evaluated
    first, inside the [try]: [parseFloat(amount)], then [new Date(date)].
    The [console.error] of a [catch] block writes to the server log only and
    is left out. *)

Section Handlers.
Context `{Host}.

(** [app.get('/api/transactions', ...)] *)
Definition get_transactions (req : Request) : Async Response :=
  try_catch
    (await transactions := prisma_findMany_orderBy_date_desc in
     res_json (TransactionsJson transactions))
    (fun error =>
       res_status_json 500 (ErrorJson "Failed to fetch transactions")).

(** [app.get('/api/transactions/:id', ...)] *)
Definition get_transaction (req : Request) : Async Response :=
  try_catch
    (let id := params_id req in
     if negb (isValidObjectId (JStr id)) then
       res_status_json 400 (ErrorJson "Invalid transaction ID format")
     else
       await transaction := prisma_findUnique id in
       match transaction with
       | None => res_status_json 404 (ErrorJson "Transaction not found")
       | Some t => res_json (TransactionJson t)
       end)
    (fun error =>
       res_status_json 500 (ErrorJson "Failed to fetch transaction")).

(** [app.post('/api/transactions', ...)] *)
Definition post_transaction (req : Request) : Async Response :=
  try_catch
    (let amount := field (body req) "amount" in
     let date := field (body req) "date" in
     let description := field (body req) "description" in
     let id := field (body req) "id" in
     if negb (ToBoolean id) then
       res_status_json 400 (ErrorJson "Transaction ID is required")
     else if negb (isValidObjectId id) then
       res_status_json 400 (ErrorJson "Invalid transaction ID format")
     else
       const amount' := parseFloat amount in
       const date' := newDate date in
       await transaction :=
         prisma_create id (mkData amount' date' description) in
       res_status_json 201 (TransactionJson transaction))
    (fun error =>
       if has_code "P2002" error then
         res_status_json 409
           (ErrorJson "A transaction with this ID already exists")
       else
         res_status_json 500 (ErrorJson "Failed to create transaction")).

(** [app.put('/api/transactions/:id', ...)] *)
Definition put_transaction (req : Request) : Async Response :=
  try_catch
    (let id := params_id req in
     let amount := field (body req) "amount" in
     let date := field (body req) "date" in
     let description := field (body req) "description" in
     if negb (isValidObjectId (JStr id)) then
       res_status_json 400 (ErrorJson "Invalid transaction ID format")
     else
       const amount' := parseFloat amount in
       const date' := newDate date in
       await transaction :=
         prisma_update id (mkData amount' date' description) in
       res_json (TransactionJson transaction))
    (fun error =>
       if has_code "P2025" error then
         res_status_json 404 (ErrorJson "Transaction not found")
       else
         res_status_json 500 (ErrorJson "Failed to update transaction")).

(** [app.delete('/api/transactions/:id', ...)] *)
Definition delete_transaction (req : Request) : Async Response :=
  try_catch
    (let id := params_id req in
     if negb (isValidObjectId (JStr id)) then
       res_status_json 400 (ErrorJson "Invalid transaction ID format")
     else
       await _deleted := prisma_delete id in
       res_json (MessageJson "Transaction deleted successfully"))
    (fun error =>
       if has_code "P2025" error then
         res_status_json 404 (ErrorJson "Transaction not found")
       else
         res_status_json 500 (ErrorJson "Failed to delete transaction")).

End Handlers.

(** The responses of the error taxonomy. *)
Definition InvalidIdentifier : Response :=
  mkResponse 400 (ErrorJson "Invalid transaction ID format").
Definition MissingIdentifier : Response :=
  mkResponse 400 (ErrorJson "Transaction ID is required").
Definition NotFound : Response :=
  mkResponse 404 (ErrorJson "Transaction not found").
Definition DuplicateIdentifier : Response :=
  mkResponse 409 (ErrorJson "A transaction with this ID already exists").
Definition Deleted : Response :=
  mkResponse 200 (MessageJson "Transaction deleted successfully").

(** The coercion step of Create and Update: the [data] built from the
    body, unless [parseFloat(amount)] or [new Date(date)] throws. *)
Definition coerce `{Host} (b : gmap string JsValue) : Completion TxData :=
  match parseFloat (field b "amount") with
  | Throw e => Throw e
  | Normal amount =>
      match newDate (field b "date") with
      | Throw e => Throw e
      | Normal date => Normal (mkData amount date (field b "description"))
      end
  end.

(** The document that holds [data] under the identifier [id]. *)
Definition record_of (id : string) (data : TxData) : Transaction :=
  mkTransaction id (data_amount data) (data_date data)
    (data_description data).

(** ** The identifier format, in the words of the specification *)

Definition hex_char (a : ascii) : Prop :=
  48 ≤ char_code a ≤ 57 ∨ 97 ≤ char_code a ≤ 102 ∨ 65 ≤ char_code a ≤ 70.

(** A 24-character hexadecimal string. *)
Definition objectid_format (s : string) : Prop :=
  String.length s = 24%nat ∧ Forall hex_char (list_ascii_of_string s).

(** The handler [m] accepts the identifier: it does not answer
    [InvalidIdentifier], and issues exactly the persistence call [c]. *)
Definition accepts_with (m : Async Response) (w : World) (c : PrismaCall)
  : Prop :=
  ∃ r w', m w = (Normal r, w') ∧ r ≠ InvalidIdentifier
          ∧ calls w' = calls w ++ [c].

(** The handler [m] answers [r] and leaves the world as it found it: no
    persistence call, no change of the store. *)
Definition short_circuits (m : Async Response) (w : World) (r : Response)
  : Prop :=
  m w = (Normal r, w).

(** The stored identifiers are pairwise distinct and well formed. *)
Definition store_ok (rs : list Transaction) : Prop :=
  NoDup (map tx_id rs) ∧ Forall (fun t => is_hex24 (tx_id t) = true) rs.

(** The order on dates behind [date_desc]: [d1] is no earlier than [d2]. *)
Definition no_earlier (d1 d2 : JsDate) : Prop := date_leb d2 d1 = true.


(** ** Concrete inputs *)

Definition sample_id : string := "64b7f0c2a1d3e4f5a6b7c8d9".
Definition other_id : string := "0123456789abcdefABCDEF01".

Definition empty_world : World := mkWorld [] true [].

Definition sample_body : gmap string JsValue :=
  {[ "id" := JStr sample_id; "amount" := JStr "12.50";
     "date" := JStr "2023-06-01"; "description" := JStr "groceries" ]}.

Definition sample_tx : Transaction :=
  mkTransaction sample_id (Finite false 7036874417766400 (-49))
    (TimeValue 1685577600000) (JStr "groceries").

Definition sample_world : World := mkWorld [sample_tx] true [].


(** A body whose amount is an object with a [toString] key: converting it
    throws. *)
Definition throwing_body : gmap string JsValue :=
  {[ "id" := JStr sample_id;
     "amount" := JObj [("toString", JNum (Finite false 1 0))];
     "date" := JStr "2023-06-01"; "description" := JStr "groceries" ]}.

(** The [data] of [sample_body] and of [update_body]. *)
Definition sample_data : TxData :=
  mkData (Finite false 7036874417766400 (-49)) (TimeValue 1685577600000)
    (JStr "groceries").

Definition update_data : TxData :=
  mkData (Finite false 5 0) (TimeValue 1709193600000) (JStr "leap").

(** The transactions of the specification's example, and a store into
    which they were inserted in the order January, June, March. *)
Definition tx_jan : Transaction :=
  mkTransaction "0000000000000000000000a1" (Finite false 1 0)
    (TimeValue 1672531200000) (JStr "january").
Definition tx_jun : Transaction :=
  mkTransaction "0000000000000000000000a2" (Finite false 2 0)
    (TimeValue 1685577600000) (JStr "june").
Definition tx_mar : Transaction :=
  mkTransaction "0000000000000000000000a3" (Finite false 3 0)
    (TimeValue 1677628800000) (JStr "march").

Definition example_world : World := mkWorld [tx_jan; tx_jun; tx_mar] true [].

Definition update_body : gmap string JsValue :=
  {[ "amount" := JNum (Finite false 5 0);
     "date" := JStr "2024-02-29T08:00:00Z";
     "description" := JStr "leap" ]}.

(** The scenario of the specification: three transactions created with the
    dates 2023-01-01, 2023-06-01 and 2023-03-01, then listed. *)
Definition dated_request (id date : string) : Request :=
  mkRequest ""
    {[ "id" := JStr id; "amount" := JStr "10"; "date" := JStr date;
       "description" := JStr date ]}.

Definition after_three_creates : World :=
  let w1 := (post_transaction (H:=strict_host)
               (dated_request "0000000000000000000000a1" "2023-01-01")
               empty_world).2 in
  let w2 := (post_transaction (H:=strict_host)
               (dated_request "0000000000000000000000a2" "2023-06-01") w1).2 in
  (post_transaction (H:=strict_host)
     (dated_request "0000000000000000000000a3" "2023-03-01") w2).2.

(** ** Routing and configuration *)

(** The five routes registered on [app], by method and path. *)
Inductive Route : Type :=
| GET_transactions
| GET_transaction
| POST_transactions
| PUT_transaction
| DELETE_transaction.

#[global] Instance Route_eq_dec : EqDecision Route.
Proof. solve_decision. Defined.

(** The handler registered for a route. *)
Definition serve `{Host} (r : Route) : Request → Async Response :=
  match r with
  | GET_transactions => get_transactions
  | GET_transaction => get_transaction
  | POST_transactions => post_transaction
  | PUT_transaction => put_transaction
  | DELETE_transaction => delete_transaction
  end.

(** The world after a sequence of requests, served one after the other. *)
Fixpoint serve_all `{Host} (rs : list (Route * Request)) (w : World) : World :=
  match rs with
  | [] => w
  | (r, req) :: rest => serve_all rest (serve r req w).2
  end.

(** [const PORT = process.env.PORT || 3001]; an environment variable is a
    string, or [undefined] when it is not set. *)
Definition PORT (env_PORT : option string) : JsValue :=
  let v := from_option JStr JUndefined env_PORT in
  if ToBoolean v then v else JNum (Finite false 3001 0).

(** The identifier a request names: the [id] of the body for Create, the
    [:id] of the path for the other routes. *)
Definition target (r : Route) (req : Request) : JsValue :=
  match r with
  | POST_transactions => field (body req) "id"
  | _ => JStr (params_id req)
  end.

(** The handler [m] answers the request with [r]: its promise fulfils
    after [res] has been sent. *)
Definition answers (m : Async Response) (w : World) (r : Response) (w' : World)
  : Prop :=
  m w = (Normal r, w').

(** The messages of the [catch] blocks that end in status 500. *)
Definition InternalFailure (message : string) : Response :=
  mkResponse 500 (ErrorJson message).

(** * Properties *)

(** ** Identifier format *)

Lemma is_hex_digit_spec a : is_hex_digit a = true ↔ hex_char a.
Proof.
  unfold is_hex_digit, is_digit, in_range, hex_char.
  rewrite !orb_true_iff, !andb_true_iff, !Z.leb_le. tauto.
Qed.

Lemma is_hex24_spec s : is_hex24 s = true ↔ objectid_format s.
Proof.
  unfold is_hex24, objectid_format.
  rewrite andb_true_iff, Z.eqb_eq, forallb_forall, Forall_forall.
  split; intros [Hlen Hall]; (split; [lia |]).
  - intros a Ha. apply is_hex_digit_spec, Hall. by apply list_elem_of_In.
  - intros a Ha. apply is_hex_digit_spec, Hall. by apply list_elem_of_In.
Qed.

Lemma is_hex24_false s : is_hex24 s = false ↔ ¬ objectid_format s.
Proof.
  rewrite <- is_hex24_spec. destruct (is_hex24 s); split; congruence.
Qed.

Lemma sample_id_format : objectid_format sample_id.
Proof. by apply is_hex24_spec. Defined.


(** ** The store *)

Lemma find_record_id id rs t : find_record id rs = Some t → tx_id t = id.
Proof.
  induction rs as [| t0 rs IH]; cbn; [done |].
  destruct (String.eqb (tx_id t0) id) eqn:E; [| done].
  intros [= <-]. by apply String.eqb_eq.
Qed.

Lemma find_record_None id rs :
  find_record id rs = None ↔ id ∉ map tx_id rs.
Proof.
  induction rs as [| t0 rs IH]; cbn.
  - split; [intros _; apply not_elem_of_nil | done].
  - rewrite not_elem_of_cons.
    destruct (String.eqb (tx_id t0) id) eqn:E.
    + apply String.eqb_eq in E. split; [done | intros [Hne _]; congruence].
    + apply String.eqb_neq in E. rewrite IH. split; [| tauto].
      intros Hnot. split; [congruence | done].
Qed.

Lemma find_record_app id rs1 rs2 :
  find_record id (rs1 ++ rs2) =
  match find_record id rs1 with
  | Some t => Some t
  | None => find_record id rs2
  end.
Proof.
  induction rs1 as [| t0 rs1 IH]; cbn; [done |].
  by destruct (String.eqb (tx_id t0) id).
Qed.

(** A record that is found sits at one place of the store; replacing and
    removing touch that place only. *)
Lemma find_record_split id rs t :
  find_record id rs = Some t →
  ∃ pre post, rs = pre ++ t :: post
    ∧ find_record id pre = None
    ∧ (∀ t', replace_record id t' rs = pre ++ t' :: post)
    ∧ remove_record id rs = pre ++ post.
Proof.
  induction rs as [| t0 rs IH]; cbn; [done |].
  destruct (String.eqb (tx_id t0) id) eqn:E.
  - intros [= ->]. by exists [], rs.
  - intros Hfind. destruct (IH Hfind) as (pre & post & -> & Hpre & Hrep & Hrem).
    exists (t0 :: pre), post. cbn. rewrite E, Hrem.
    repeat split; [done |]. intros t'. by rewrite Hrep.
Qed.

Lemma find_record_insert id rs t :
  find_record id rs = None → tx_id t = id →
  find_record id (rs ++ [t]) = Some t.
Proof.
  intros Hnone Hid. rewrite find_record_app, Hnone. cbn.
  by rewrite <- Hid, String.eqb_refl.
Qed.

Lemma find_record_replace id rs t t' :
  find_record id rs = Some t → tx_id t' = id →
  find_record id (replace_record id t' rs) = Some t'
  ∧ ∀ id', id' ≠ id →
      find_record id' (replace_record id t' rs) = find_record id' rs.
Proof.
  intros Hfind Hid'.
  pose proof (find_record_id _ _ _ Hfind) as Hid.
  destruct (find_record_split _ _ _ Hfind)
    as (pre & post & -> & Hpre & Hrep & _).
  rewrite Hrep, !find_record_app, Hpre. cbn. split.
  - by rewrite Hid', String.eqb_refl.
  - intros id' Hne. rewrite !find_record_app. cbn.
    rewrite Hid, Hid'. destruct (find_record id' pre); [done |].
    destruct (String.eqb_spec id id'); [congruence | done].
Qed.

Lemma find_record_remove id rs t :
  NoDup (map tx_id rs) → find_record id rs = Some t →
  find_record id (remove_record id rs) = None
  ∧ ∀ id', id' ≠ id →
      find_record id' (remove_record id rs) = find_record id' rs.
Proof.
  intros Hnodup Hfind.
  pose proof (find_record_id _ _ _ Hfind) as Hid.
  destruct (find_record_split _ _ _ Hfind)
    as (pre & post & -> & Hpre & _ & Hrem).
  rewrite Hrem. split.
  - rewrite find_record_app, Hpre. apply find_record_None.
    rewrite map_app in Hnodup. cbn in Hnodup.
    apply NoDup_app in Hnodup as (_ & _ & Hpost).
    apply NoDup_cons in Hpost as [Hnotin _]. by rewrite <- Hid.
  - intros id' Hne. rewrite !find_record_app. cbn.
    destruct (String.eqb (tx_id t) id') eqn:E; [| done].
    apply String.eqb_eq in E. congruence.
Qed.

(** ** Running a handler *)

Ltac unfold_handler :=
  unfold accepts_with, short_circuits,
    get_transactions, get_transaction, post_transaction, put_transaction,
    delete_transaction, try_catch, bind, completion, res_json,
    res_status_json, ret,
    prisma_findMany_orderBy_date_desc, prisma_findUnique, prisma_create,
    prisma_update, prisma_delete, isValidObjectId, ObjectId_isValid;
  cbn [params_id body].

(** Create and Update in closed form: the validation, then the coercion
    step, then the outcome of the one persistence call. *)
Lemma put_closed_form `{Host} id b w :
  put_transaction (mkRequest id b) w =
    if is_hex24 id then
      match coerce b with
      | Throw _ =>
          (Normal (InternalFailure "Failed to update transaction"), w)
      | Normal data =>
          if online w then
            match find_record id (records w) with
            | None => (Normal NotFound, issue (Update id data) w)
            | Some _ =>
                (Normal (mkResponse 200 (TransactionJson (record_of id data))),
                 with_records
                   (replace_record id (record_of id data) (records w))
                   (issue (Update id data) w))
            end
          else (Normal (InternalFailure "Failed to update transaction"),
                issue (Update id data) w)
      end
    else (Normal InvalidIdentifier, w).
Proof.
  unfold_handler. unfold coerce, parseFloat, newDate.
  destruct (is_hex24 id); cbn; [| done].
  destruct (ToPrimitive_throws (field b "amount")); cbn; [done |].
  destruct (ToPrimitive_throws (field b "date")); cbn; [done |].
  destruct (online w); [| done].
  destruct (find_record id (records w)) as [old |] eqn:Hfind; cbn; [| done].
  unfold record_of. cbn. by rewrite (find_record_id _ _ _ Hfind).
Qed.

Lemma post_closed_form `{Host} req w :
  post_transaction req w =
    let id := field (body req) "id" in
    if negb (ToBoolean id) then (Normal MissingIdentifier, w)
    else if negb (isValidObjectId id) then (Normal InvalidIdentifier, w)
    else
      match coerce (body req) with
      | Throw _ =>
          (Normal (InternalFailure "Failed to create transaction"), w)
      | Normal data =>
          if online w then
            match id with
            | JStr s =>
                match find_record s (records w) with
                | Some _ =>
                    (Normal DuplicateIdentifier, issue (Create id data) w)
                | None =>
                    (Normal (mkResponse 201
                               (TransactionJson (record_of s data))),
                     with_records (records w ++ [record_of s data])
                       (issue (Create id data) w))
                end
            | _ => (Normal (InternalFailure "Failed to create transaction"),
                    issue (Create id data) w)
            end
          else (Normal (InternalFailure "Failed to create transaction"),
                issue (Create id data) w)
      end.
Proof.
  unfold_handler. unfold coerce, parseFloat, newDate. cbn zeta.
  destruct (ToBoolean (field (body req) "id")); cbn; [| done].
  match goal with
  | |- context [negb ?c] => destruct c; cbn; [| done]
  end.
  destruct (ToPrimitive_throws (field (body req) "amount")); cbn; [done |].
  destruct (ToPrimitive_throws (field (body req) "date")); cbn; [done |].
  destruct (online w); [| done].
  destruct (field (body req) "id"); try done.
  by destruct (find_record s (records w)).
Qed.

Lemma get_invalid_id id b w :
  is_hex24 id = false →
  get_transaction (mkRequest id b) w = (Normal InvalidIdentifier, w).
Proof. intros Hid. unfold_handler. by rewrite Hid. Qed.

Lemma put_invalid_id `{Host} id b w :
  is_hex24 id = false →
  put_transaction (mkRequest id b) w = (Normal InvalidIdentifier, w).
Proof. intros Hid. by rewrite put_closed_form, Hid. Qed.

Lemma delete_invalid_id id b w :
  is_hex24 id = false →
  delete_transaction (mkRequest id b) w = (Normal InvalidIdentifier, w).
Proof. intros Hid. unfold_handler. by rewrite Hid. Qed.

Lemma get_valid_id id b w :
  is_hex24 id = true →
  accepts_with (get_transaction (mkRequest id b)) w (FindUnique id).
Proof.
  intros Hid. unfold_handler. rewrite Hid. cbn.
  destruct (online w); [destruct (find_record id (records w)) |];
    eexists _, _; (split; [reflexivity | split; [discriminate | done]]).
Qed.

Lemma put_valid_id `{Host} id b w data :
  is_hex24 id = true → coerce b = Normal data →
  accepts_with (put_transaction (mkRequest id b)) w (Update id data).
Proof.
  intros Hid Hdata. unfold accepts_with.
  rewrite put_closed_form, Hid, Hdata.
  destruct (online w); [destruct (find_record id (records w)) |];
    eexists _, _; (split; [reflexivity | split; [discriminate | done]]).
Qed.

Lemma put_coercion_throws `{Host} id b w e :
  is_hex24 id = true → coerce b = Throw e →
  put_transaction (mkRequest id b) w =
    (Normal (InternalFailure "Failed to update transaction"), w).
Proof. intros Hid He. by rewrite put_closed_form, Hid, He. Qed.

Lemma delete_valid_id id b w :
  is_hex24 id = true →
  accepts_with (delete_transaction (mkRequest id b)) w (Delete id).
Proof.
  intros Hid. unfold_handler. rewrite Hid. cbn.
  destruct (online w); [destruct (find_record id (records w)) |];
    eexists _, _; (split; [reflexivity | split; [discriminate | done]]).
Qed.

Lemma accepts_not_short_circuit m w c :
  accepts_with m w c → ¬ short_circuits m w InvalidIdentifier.
Proof.
  intros (r & w' & Hrun & Hr & _) Hsc. unfold short_circuits in Hsc.
  rewrite Hsc in Hrun. by injection Hrun as <- _.
Qed.

Lemma accepts_issues_call m w c : accepts_with m w c → (m w).2 ≠ w.
Proof.
  intros (r & w' & Hrun & _ & Hcalls) Hsame. rewrite Hrun in Hsame.
  cbn in Hsame. subst w'.
  apply (f_equal length) in Hcalls. rewrite length_app in Hcalls.
  cbn in Hcalls. lia.
Qed.

(** C1, as stated, fails for Update: with a well-formed [id] and a body
    whose amount cannot be converted, the handler answers 500 from its
    [catch] block and no persistence call is issued. *)
Lemma update_valid_id_without_call_counterexample :
  objectid_format sample_id
  ∧ put_transaction (H:=strict_host) (mkRequest sample_id throwing_body)
      sample_world
    = (Normal (InternalFailure "Failed to update transaction"), sample_world)
  ∧ ¬ ∃ c, accepts_with
             (put_transaction (H:=strict_host)
                (mkRequest sample_id throwing_body)) sample_world c.
Proof.
  split; [by apply is_hex24_spec |]. split; [reflexivity |].
  intros [c Hacc]. by apply accepts_issues_call in Hacc.
Qed.

(** C1, amended. Get and Delete accept the [id] of the request and issue
    their persistence call if and only if the [id] is a 24-character
    hexadecimal string; Update does so if and only if, in addition, the
    coercion of the body's amount and date completes, and otherwise answers
    500 without a call.  For an [id] that is not of that form, and only for
    such an [id], the three handlers answer [InvalidIdentifier] (400), and no
    persistence call is made: the world is left as it was. *)
Theorem id_gate_get_update_delete `{Host}
    (id : string) (b : gmap string JsValue) (w : World) :
  let req := mkRequest id b in
  (accepts_with (get_transaction req) w (FindUnique id)
     ↔ objectid_format id)
  ∧ (accepts_with (delete_transaction req) w (Delete id)
     ↔ objectid_format id)
  ∧ (∀ data, accepts_with (put_transaction req) w (Update id data)
       ↔ objectid_format id ∧ coerce b = Normal data)
  ∧ (∀ e, objectid_format id → coerce b = Throw e →
       short_circuits (put_transaction req) w
         (InternalFailure "Failed to update transaction"))
  ∧ (short_circuits (get_transaction req) w InvalidIdentifier
     ↔ ¬ objectid_format id)
  ∧ (short_circuits (put_transaction req) w InvalidIdentifier
     ↔ ¬ objectid_format id)
  ∧ (short_circuits (delete_transaction req) w InvalidIdentifier
     ↔ ¬ objectid_format id).
Proof.
  intros req. subst req.
  rewrite <- !is_hex24_false.
  setoid_rewrite <- is_hex24_spec.
  pose proof (get_invalid_id id b w) as Hg0.
  pose proof (put_invalid_id id b w) as Hp0.
  pose proof (delete_invalid_id id b w) as Hd0.
  pose proof (get_valid_id id b w) as Hg1.
  pose proof (delete_valid_id id b w) as Hd1.
  destruct (is_hex24 id) eqn:Hid.
  - specialize (Hg1 eq_refl). specialize (Hd1 eq_refl).
    split; [done |]. split; [done |].
    split.
    { intros data. split; [| intros [_ Hdata]; by apply put_valid_id].
      intros Hacc. split; [done |].
      destruct (coerce b) as [data' | e] eqn:Hdata.
      - pose proof (put_valid_id id b w data' Hid Hdata)
          as (r' & w2 & Hrun' & _ & Hcalls').
        destruct Hacc as (r & w1 & Hrun & _ & Hcalls).
        rewrite Hrun in Hrun'. injection Hrun' as _ <-.
        rewrite Hcalls in Hcalls'. apply app_inv_head in Hcalls'.
        by injection Hcalls' as ->.
      - apply accepts_issues_call in Hacc.
        by rewrite (put_coercion_throws id b w e Hid Hdata) in Hacc. }
    split; [intros e _ He; by eapply put_coercion_throws |].
    assert (∀ m c, accepts_with m w c →
              short_circuits m w InvalidIdentifier ↔ true = false) as Hno.
    { intros m c Hacc. split; [| done].
      intros Hsc. exfalso. by eapply accepts_not_short_circuit. }
    split; [by eapply Hno |]. split; [| by eapply Hno].
    split; [| done]. unfold short_circuits. rewrite put_closed_form, Hid.
    destruct (coerce b); [destruct (online w);
      [destruct (find_record id (records w)) |] |]; intros [=].
  - specialize (Hg0 eq_refl). specialize (Hp0 eq_refl).
    specialize (Hd0 eq_refl).
    assert (∀ m c, short_circuits m w InvalidIdentifier →
              accepts_with m w c ↔ false = true) as Hno.
    { intros m c Hsc. split; [| done].
      intros Hacc. exfalso. by eapply accepts_not_short_circuit. }
    split; [by apply Hno |]. split; [by apply Hno |].
    split.
    { intros data. split; [| by intros [? _]].
      intros Hacc. exfalso. by eapply accepts_not_short_circuit. }
    split; [done |]. by repeat split.
Qed.

Lemma id_gate_get_update_delete_witness :
  accepts_with (get_transaction (mkRequest sample_id ∅)) sample_world
    (FindUnique sample_id)
  ∧ accepts_with
      (put_transaction (H:=strict_host) (mkRequest sample_id update_body))
      sample_world (Update sample_id update_data)
  ∧ short_circuits
      (put_transaction (H:=strict_host) (mkRequest sample_id throwing_body))
      sample_world (InternalFailure "Failed to update transaction")
  ∧ short_circuits (delete_transaction (mkRequest "not-an-id" ∅)) sample_world
      InvalidIdentifier.
Proof.
  destruct (id_gate_get_update_delete (H:=strict_host) sample_id ∅
              sample_world) as (Hget & _).
  destruct (id_gate_get_update_delete (H:=strict_host) sample_id update_body
              sample_world) as (_ & _ & Hput & _).
  destruct (id_gate_get_update_delete (H:=strict_host) sample_id
              throwing_body sample_world) as (_ & _ & _ & Hthrow & _).
  destruct (id_gate_get_update_delete (H:=strict_host) "not-an-id" ∅
              sample_world) as (_ & _ & _ & _ & _ & _ & Hdelete).
  split; [apply Hget, sample_id_format |].
  split; [apply Hput; split; [apply sample_id_format | reflexivity] |].
  split; [apply (Hthrow TypeError sample_id_format); reflexivity |].
  apply Hdelete, is_hex24_false. reflexivity.
Defined.

(** ** Outcomes of the persistence calls, seen through the handlers *)

Section Outcomes.
Context `{Host}.

Lemma field_lookup (b : gmap string JsValue) k v :
  b !! k = Some v → field b k = v.
Proof. unfold field. by intros ->. Qed.

Lemma coerce_normal (b : gmap string JsValue) amount date :
  parseFloat (field b "amount") = Normal amount →
  newDate (field b "date") = Normal date →
  coerce b = Normal (mkData amount date (field b "description")).
Proof. intros Hamount Hdate. unfold coerce. by rewrite Hamount, Hdate. Qed.


(** Create for a body whose [id] is a well-formed string. *)
Lemma post_string_id req id w :
  body req !! "id" = Some (JStr id) →
  is_hex24 id = true →
  post_transaction req w =
    match coerce (body req) with
    | Throw _ => (Normal (InternalFailure "Failed to create transaction"), w)
    | Normal data =>
        if online w then
          match find_record id (records w) with
          | Some _ =>
              (Normal DuplicateIdentifier, issue (Create (JStr id) data) w)
          | None =>
              (Normal (mkResponse 201 (TransactionJson (record_of id data))),
               with_records (records w ++ [record_of id data])
                 (issue (Create (JStr id) data) w))
          end
        else (Normal (InternalFailure "Failed to create transaction"),
              issue (Create (JStr id) data) w)
    end.
Proof.
  intros Hb Hid. rewrite post_closed_form. cbn zeta.
  rewrite (field_lookup _ _ _ Hb). cbn.
  assert (id ≠ "") as Hne by (intros ->; discriminate).
  apply String.eqb_neq in Hne. rewrite Hne. cbn. by rewrite Hid.
Qed.

Lemma post_created req id w data :
  online w = true →
  body req !! "id" = Some (JStr id) →
  is_hex24 id = true →
  find_record id (records w) = None →
  coerce (body req) = Normal data →
  post_transaction req w =
    (Normal (mkResponse 201 (TransactionJson (record_of id data))),
     with_records (records w ++ [record_of id data])
       (issue (Create (JStr id) data) w)).
Proof.
  intros Hon Hb Hid Hnone Hdata.
  by rewrite (post_string_id req id w Hb Hid), Hdata, Hon, Hnone.
Qed.



Lemma get_found id b w t :
  online w = true → is_hex24 id = true →
  find_record id (records w) = Some t →
  get_transaction (mkRequest id b) w =
    (Normal (mkResponse 200 (TransactionJson t)), issue (FindUnique id) w).
Proof.
  intros Hon Hid Hfind. unfold_handler. rewrite Hid. cbn.
  by rewrite Hon, Hfind.
Qed.

Lemma get_not_found id b w :
  online w = true → is_hex24 id = true →
  find_record id (records w) = None →
  get_transaction (mkRequest id b) w =
    (Normal NotFound, issue (FindUnique id) w).
Proof.
  intros Hon Hid Hfind. unfold_handler. rewrite Hid. cbn.
  by rewrite Hon, Hfind.
Qed.



Lemma delete_not_found id b w :
  online w = true → is_hex24 id = true →
  find_record id (records w) = None →
  delete_transaction (mkRequest id b) w =
    (Normal NotFound, issue (Delete id) w).
Proof.
  intros Hon Hid Hfind. unfold_handler. rewrite Hid. cbn.
  by rewrite Hon, Hfind.
Qed.

Lemma delete_deleted id b w old :
  online w = true → is_hex24 id = true →
  find_record id (records w) = Some old →
  delete_transaction (mkRequest id b) w =
    (Normal Deleted,
     with_records (remove_record id (records w)) (issue (Delete id) w)).
Proof.
  intros Hon Hid Hfind. unfold_handler. rewrite Hid. cbn.
  by rewrite Hon, Hfind.
Qed.

End Outcomes.

(** ** Create *)

(** C3. For a request body with a well-formed [id] that is not yet stored
    and with coercible [amount] and [date] ([parseFloat] gives a finite
    number, [new Date] a valid date), Create answers 201 with the created
    transaction, whose fields are the submitted ones after coercion, and a
    following Get of that [id] answers 200 with a transaction equal to it. *)
Theorem create_then_get `{Host} (req : Request) (id : string) (w : World)
    (amount : JsNumber) (date : JsDate) :
  online w = true →
  body req !! "id" = Some (JStr id) →
  objectid_format id →
  find_record id (records w) = None →
  parseFloat (field (body req) "amount") = Normal amount →
  is_finite amount = true →
  newDate (field (body req) "date") = Normal date →
  is_valid_date date = true →
  ∃ t w1,
    post_transaction req w = (Normal (mkResponse 201 (TransactionJson t)), w1)
    ∧ tx_id t = id
    ∧ tx_amount t = amount
    ∧ tx_date t = date
    ∧ tx_description t = field (body req) "description"
    ∧ is_finite (tx_amount t) = true
    ∧ is_valid_date (tx_date t) = true
    ∧ ∀ b, get_transaction (mkRequest id b) w1 =
             (Normal (mkResponse 200 (TransactionJson t)),
              issue (FindUnique id) w1).
Proof.
  intros Hon Hb Hid Hfresh Hamount Hfinite Hdate Hvalid.
  apply is_hex24_spec in Hid.
  pose proof (coerce_normal _ _ _ Hamount Hdate) as Hdata.
  eexists _, _. split; [by apply post_created |].
  repeat split; try done.
  intros b. apply get_found; [done | done |].
  by apply find_record_insert.
Qed.

Lemma create_then_get_witness :
  ∃ t w1,
    post_transaction (H:=strict_host) (mkRequest "" sample_body) empty_world
      = (Normal (mkResponse 201 (TransactionJson t)), w1)
    ∧ tx_id t = sample_id
    ∧ tx_amount t = Finite false 7036874417766400 (-49)
    ∧ tx_date t = TimeValue 1685577600000
    ∧ tx_description t = JStr "groceries"
    ∧ is_finite (tx_amount t) = true
    ∧ is_valid_date (tx_date t) = true
    ∧ ∀ b, get_transaction (mkRequest sample_id b) w1 =
             (Normal (mkResponse 200 (TransactionJson t)),
              issue (FindUnique sample_id) w1).
Proof.
  apply (create_then_get (H:=strict_host) (mkRequest "" sample_body)
           sample_id empty_world (Finite false 7036874417766400 (-49))
           (TimeValue 1685577600000));
    [reflexivity | reflexivity | exact sample_id_format
    | reflexivity | reflexivity | reflexivity | reflexivity | reflexivity].
Defined.




(** ** Unknown identifiers *)




(** ** List *)

Lemma date_leb_total d1 d2 : date_leb d1 d2 = true ∨ date_leb d2 d1 = true.
Proof.
  destruct d1 as [| x], d2 as [| y]; cbn; auto.
  rewrite !Z.leb_le. lia.
Qed.

Lemma date_leb_trans d1 d2 d3 :
  date_leb d1 d2 = true → date_leb d2 d3 = true → date_leb d1 d3 = true.
Proof.
  destruct d1 as [| x], d2 as [| y], d3 as [| z]; cbn; try done.
  rewrite !Z.leb_le. lia.
Qed.

Lemma date_leb_antisym d1 d2 :
  date_leb d1 d2 = true → date_leb d2 d1 = true → d1 = d2.
Proof.
  destruct d1 as [| x], d2 as [| y]; cbn; try done.
  rewrite !Z.leb_le. intros. f_equal. lia.
Qed.

#[global] Instance date_desc_total : Total date_desc.
Proof. intros a b. unfold date_desc. apply date_leb_total. Qed.

#[global] Instance date_desc_trans : Transitive date_desc.
Proof. intros a b c Hab Hbc. unfold date_desc in *. by eapply date_leb_trans. Qed.

#[global] Instance no_earlier_antisym : AntiSymm (=) no_earlier.
Proof. intros d1 d2 H12 H21. by apply date_leb_antisym. Qed.

Lemma distinct_dates_inj rs x y :
  NoDup (map tx_date rs) → x ∈ rs → y ∈ rs → tx_date x = tx_date y → x = y.
Proof.
  induction rs as [| t rs IH]; cbn; intros Hnd Hx Hy Heq.
  - by apply elem_of_nil in Hx.
  - apply NoDup_cons in Hnd as [Hnotin Hnd].
    apply elem_of_cons in Hx as [-> | Hx], Hy as [-> | Hy]; auto.
    + exfalso. apply Hnotin. rewrite Heq. by apply list_elem_of_fmap_2.
    + exfalso. apply Hnotin. rewrite <- Heq. by apply list_elem_of_fmap_2.
Qed.

Lemma findMany_sorted rs : StronglySorted date_desc (merge_sort date_desc rs).
Proof. apply StronglySorted_merge_sort; apply _. Qed.

Lemma findMany_dates_sorted rs :
  StronglySorted no_earlier (map tx_date (merge_sort date_desc rs)).
Proof.
  apply (StronglySorted_fmap tx_date date_desc no_earlier); [done |].
  apply findMany_sorted.
Qed.

Lemma get_transactions_online req w :
  online w = true →
  get_transactions req w =
    (Normal (mkResponse 200
               (TransactionsJson (merge_sort date_desc (records w)))),
     issue FindMany w).
Proof. intros Hon. unfold_handler. by rewrite Hon. Qed.

(** C6. In every store state List answers with all the stored
    transactions, ordered by date descending (most recent first).  The
    answer does not depend on the insertion order: for a store holding the
    same transactions in another order the dates come out in the same
    sequence, and when no two stored dates coincide the two answers are the
    same list. *)
Theorem list_by_date_desc (req : Request) (w : World) :
  online w = true →
  ∃ ts,
    get_transactions req w =
      (Normal (mkResponse 200 (TransactionsJson ts)), issue FindMany w)
    ∧ ts ≡ₚ records w
    ∧ StronglySorted date_desc ts
    ∧ ∀ req' w', online w' = true → records w' ≡ₚ records w →
        ∃ ts',
          get_transactions req' w' =
            (Normal (mkResponse 200 (TransactionsJson ts')),
             issue FindMany w')
          ∧ map tx_date ts' = map tx_date ts
          ∧ (NoDup (map tx_date (records w)) → ts' = ts).
Proof.
  intros Hon. exists (merge_sort date_desc (records w)).
  split; [by apply get_transactions_online |].
  split; [apply merge_sort_Permutation |].
  split; [apply findMany_sorted |].
  intros req' w' Hon' Hperm. exists (merge_sort date_desc (records w')).
  split; [by apply get_transactions_online |].
  assert (merge_sort date_desc (records w')
            ≡ₚ merge_sort date_desc (records w)) as Hsorted_perm.
  { by rewrite !merge_sort_Permutation. }
  split.
  - apply (StronglySorted_unique no_earlier);
      [apply findMany_dates_sorted | apply findMany_dates_sorted |].
    by apply Permutation_map.
  - intros Hnd.
    apply (StronglySorted_unique_strong date_desc);
      [| apply findMany_sorted | apply findMany_sorted | done].
    intros x y Hx Hy Hxy Hyx.
    apply (distinct_dates_inj (records w)); [done | | |].
    + rewrite <- Hperm. by rewrite merge_sort_Permutation in Hx.
    + by rewrite merge_sort_Permutation in Hy.
    + by apply date_leb_antisym.
Qed.

Example list_example :
  get_transactions (mkRequest "" ∅) example_world =
    (Normal (mkResponse 200 (TransactionsJson [tx_jun; tx_mar; tx_jan])),
     issue FindMany example_world).
Proof. reflexivity. Qed.

Lemma list_by_date_desc_witness :
  ∃ ts,
    get_transactions (mkRequest "" ∅) example_world =
      (Normal (mkResponse 200 (TransactionsJson ts)),
       issue FindMany example_world)
    ∧ ts ≡ₚ records example_world
    ∧ StronglySorted date_desc ts
    ∧ ∀ req' w', online w' = true → records w' ≡ₚ records example_world →
        ∃ ts',
          get_transactions req' w' =
            (Normal (mkResponse 200 (TransactionsJson ts')),
             issue FindMany w')
          ∧ map tx_date ts' = map tx_date ts
          ∧ (NoDup (map tx_date (records example_world)) → ts' = ts).
Proof.
  apply (list_by_date_desc (mkRequest "" ∅) example_world). reflexivity.
Defined.

(** ** Validation order of Create *)

Lemma post_falsy_id `{Host} req w :
  ToBoolean (field (body req) "id") = false →
  post_transaction req w = (Normal MissingIdentifier, w).
Proof. intros Hid. rewrite post_closed_form. cbn zeta. by rewrite Hid. Qed.

Lemma post_invalid_id `{Host} req w :
  ToBoolean (field (body req) "id") = true →
  isValidObjectId (field (body req) "id") = false →
  post_transaction req w = (Normal InvalidIdentifier, w).
Proof.
  intros Hid Hfmt. rewrite post_closed_form. cbn zeta. by rewrite Hid, Hfmt.
Qed.

Lemma isValidObjectId_false v :
  isValidObjectId v = false ↔ ∀ s, v = JStr s → ¬ objectid_format s.
Proof.
  unfold isValidObjectId, ObjectId_isValid. split.
  - intros Hv s ->. by apply is_hex24_false.
  - intros Hv. destruct v; try done. by apply is_hex24_false, Hv.
Qed.

(** C7. Create validates in a fixed order.  First presence: a missing
    [id], and any [id] that fails the presence test, is answered
    [MissingIdentifier] (400) whatever the format check would say.  Then
    format: an [id] that is present but fails the format check is answered
    [InvalidIdentifier] (400).  Either check ends the request before any
    persistence call: the world is left as it was. *)
Theorem create_validation_order `{Host} (req : Request) (w : World) :
  let id := field (body req) "id" in
  (body req !! "id" = None →
     short_circuits (post_transaction req) w MissingIdentifier)
  ∧ (ToBoolean id = false →
     short_circuits (post_transaction req) w MissingIdentifier)
  ∧ (ToBoolean id = true → isValidObjectId id = false →
     short_circuits (post_transaction req) w InvalidIdentifier).
Proof.
  intros id. subst id. unfold short_circuits. repeat split.
  - intros Hb. apply post_falsy_id. unfold field. by rewrite Hb.
  - by apply post_falsy_id.
  - by apply post_invalid_id.
Qed.

Lemma create_validation_order_witness :
  short_circuits
    (post_transaction (H:=strict_host)
       (mkRequest "" {[ "amount" := JStr "1"; "date" := JStr "2023-01-01" ]}))
    sample_world MissingIdentifier
  ∧ short_circuits
      (post_transaction (H:=strict_host)
         (mkRequest "" {[ "id" := JStr "not-an-id"; "amount" := JStr "1" ]}))
      sample_world InvalidIdentifier.
Proof.
  split.
  - apply (create_validation_order (H:=strict_host)
             (mkRequest "" {[ "amount" := JStr "1";
                              "date" := JStr "2023-01-01" ]}) sample_world).
    reflexivity.
  - apply (create_validation_order (H:=strict_host)
             (mkRequest "" {[ "id" := JStr "not-an-id";
                              "amount" := JStr "1" ]}) sample_world);
      reflexivity.
Defined.

(** In the words of the identifier format: a non-empty string that is not
    a 24-character hexadecimal string is answered [InvalidIdentifier]. *)
Lemma create_malformed_string_id `{Host} (req : Request) (w : World) s :
  body req !! "id" = Some (JStr s) → s ≠ "" → ¬ objectid_format s →
  short_circuits (post_transaction req) w InvalidIdentifier.
Proof.
  intros Hb Hne Hfmt. apply post_invalid_id.
  - rewrite (field_lookup _ _ _ Hb). cbn. by apply String.eqb_neq in Hne as ->.
  - apply isValidObjectId_false. rewrite (field_lookup _ _ _ Hb).
    by intros s' [= <-].
Qed.

(** C10. The presence check of Create tests the falsiness of [id]: a body
    whose [id] is the empty string, or the number 0, is answered
    [MissingIdentifier] ("Transaction ID is required", 400) and not
    [InvalidIdentifier], although the [id] key is present in the body. *)
Theorem create_falsy_id_reported_missing `{Host} (p : string)
    (b : gmap string JsValue) (w : World) (neg : bool) (e : Z) :
  let empty_string := <["id" := JStr ""]> b in
  let zero := <["id" := JNum (Finite neg 0 e)]> b in
  is_Some (empty_string !! "id")
  ∧ is_Some (zero !! "id")
  ∧ post_transaction (mkRequest p empty_string) w
    = (Normal (mkResponse 400 (ErrorJson "Transaction ID is required")), w)
  ∧ post_transaction (mkRequest p zero) w
    = (Normal (mkResponse 400 (ErrorJson "Transaction ID is required")), w)
  ∧ MissingIdentifier ≠ InvalidIdentifier.
Proof.
  intros empty_string zero. subst empty_string zero.
  rewrite !lookup_insert_eq. repeat split; try done.
  - apply post_falsy_id. cbn. unfold field. by rewrite lookup_insert_eq.
  - apply post_falsy_id. cbn. unfold field. by rewrite lookup_insert_eq.
Qed.

(** ** Update and Delete *)



(** C9. After a successful Delete of a stored transaction (200 with the
    confirmation message), a Get of the same [id] answers [NotFound] (404);
    the other transactions are still there. *)
Theorem delete_then_get (id : string) (b b' : gmap string JsValue)
    (w : World) (old : Transaction) :
  online w = true →
  objectid_format id →
  NoDup (map tx_id (records w)) →
  find_record id (records w) = Some old →
  ∃ w1 w2,
    delete_transaction (mkRequest id b) w = (Normal Deleted, w1)
    ∧ get_transaction (mkRequest id b') w1 = (Normal NotFound, w2)
    ∧ ∀ id', id' ≠ id →
        find_record id' (records w1) = find_record id' (records w).
Proof.
  intros Hon Hid Hnodup Hfind. apply is_hex24_spec in Hid.
  destruct (find_record_remove _ _ _ Hnodup Hfind) as [Hgone Hothers].
  eexists _, _. split; [by eapply delete_deleted |].
  split; [by apply get_not_found | done].
Qed.

Lemma delete_then_get_witness :
  ∃ w1 w2,
    delete_transaction (mkRequest "0000000000000000000000a2" ∅) example_world
      = (Normal Deleted, w1)
    ∧ get_transaction (mkRequest "0000000000000000000000a2" ∅) w1
      = (Normal NotFound, w2)
    ∧ ∀ id', id' ≠ "0000000000000000000000a2" →
        find_record id' (records w1) = find_record id' (records example_world).
Proof.
  apply (delete_then_get "0000000000000000000000a2" ∅ ∅ example_world tx_jun);
    [reflexivity | by apply is_hex24_spec | | reflexivity].
  apply (bool_decide_unpack _). reflexivity.
Defined.

(** ** Coercion *)

Lemma parseFloat_not_coercible v :
  v = JUndefined ∨ v = JNull ∨ (∃ b, v = JBool b) ∨ v = JObj []
  ∨ v = JArr [] ∨ v = JNum NaN →
  parseFloat v = Normal NaN.
Proof. intros [-> | [-> | [[b ->] | [-> | [-> | ->]]]]]; reflexivity. Qed.





Lemma post_records `{Host} req id w :
  body req !! "id" = Some (JStr id) →
  is_hex24 id = true →
  records (post_transaction req w).2 =
    match coerce (body req) with
    | Normal data =>
        if online w then
          match find_record id (records w) with
          | None => records w ++ [record_of id data]
          | Some _ => records w
          end
        else records w
    | Throw _ => records w
    end.
Proof.
  intros Hb Hid. rewrite (post_string_id req id w Hb Hid).
  destruct (coerce (body req)); [| done].
  destruct (online w); [destruct (find_record id (records w)) |]; done.
Qed.

Lemma put_records `{Host} id b w :
  is_hex24 id = true →
  records (put_transaction (mkRequest id b) w).2 =
    match coerce b with
    | Normal data =>
        if online w then
          match find_record id (records w) with
          | Some _ => replace_record id (record_of id data) (records w)
          | None => records w
          end
        else records w
    | Throw _ => records w
    end.
Proof.
  intros Hid. rewrite put_closed_form, Hid.
  destruct (coerce b); [| done].
  destruct (online w); [destruct (find_record id (records w)) |]; done.
Qed.




(** ** The store invariant *)

Lemma store_ok_insert rs t :
  store_ok rs → find_record (tx_id t) rs = None → is_hex24 (tx_id t) = true →
  store_ok (rs ++ [t]).
Proof.
  intros [Hnd Hfmt] Hfresh Hid. apply find_record_None in Hfresh. split.
  - rewrite map_app. apply NoDup_app. split; [done |].
    split; [| apply NoDup_singleton].
    intros x Hx Hx'. cbn in Hx'. apply list_elem_of_singleton in Hx'.
    by subst x.
  - apply Forall_app. split; [done | by apply Forall_singleton].
Qed.

Lemma store_ok_replace rs id t old :
  store_ok rs → find_record id rs = Some old → tx_id t = id →
  store_ok (replace_record id t rs).
Proof.
  intros [Hnd Hfmt] Hfind Hid.
  pose proof (find_record_id _ _ _ Hfind) as Hold.
  destruct (find_record_split _ _ _ Hfind) as (pre & post & -> & _ & Hrep & _).
  rewrite Hrep. unfold store_ok. rewrite map_app. cbn.
  rewrite map_app in Hnd. cbn in Hnd.
  rewrite Hid, <- Hold. split; [done |].
  apply Forall_app in Hfmt as [Hpre Hpost].
  apply Forall_cons in Hpost as [Hok Hpost].
  apply Forall_app. split; [done |]. apply Forall_cons.
  split; [| done]. by rewrite Hid, <- Hold.
Qed.

Lemma store_ok_remove rs id old :
  store_ok rs → find_record id rs = Some old →
  store_ok (remove_record id rs).
Proof.
  intros [Hnd Hfmt] Hfind.
  destruct (find_record_split _ _ _ Hfind) as (pre & post & -> & _ & _ & Hrem).
  rewrite Hrem. unfold store_ok. rewrite map_app.
  rewrite map_app in Hnd. cbn in Hnd.
  apply NoDup_app in Hnd as (Hpre & Hdisj & Hpost).
  apply NoDup_cons in Hpost as [_ Hpost].
  apply Forall_app in Hfmt as [Hfpre Hfpost].
  apply Forall_cons in Hfpost as [_ Hfpost].
  split.
  - apply NoDup_app. split; [done |]. split; [| done].
    intros x Hx Hx'. apply (Hdisj x Hx). by apply elem_of_cons; right.
  - by apply Forall_app.
Qed.

Lemma field_is_string (b : gmap string JsValue) k s :
  field b k = JStr s → b !! k = Some (JStr s).
Proof.
  unfold field. destruct (b !! k); cbn; intros Hv; [by rewrite Hv | done].
Qed.

(** Every handler keeps the stored identifiers pairwise distinct and well
    formed. *)
Lemma handlers_preserve_store_ok `{Host} (req : Request) (w : World) :
  store_ok (records w) →
  store_ok (records (get_transactions req w).2)
  ∧ store_ok (records (get_transaction req w).2)
  ∧ store_ok (records (post_transaction req w).2)
  ∧ store_ok (records (put_transaction req w).2)
  ∧ store_ok (records (delete_transaction req w).2).
Proof.
  intros Hok. destruct req as [id b].
  split; [unfold_handler; by destruct (online w) |].
  split.
  { unfold_handler. destruct (is_hex24 id); cbn; [| done].
    destruct (online w); [destruct (find_record id (records w)) |]; done. }
  split.
  { destruct (ToBoolean (field b "id")) eqn:Htruthy;
      [| by rewrite post_falsy_id].
    destruct (isValidObjectId (field b "id")) eqn:Hvalid;
      [| by rewrite post_invalid_id].
    destruct (field b "id") as [| | | | s | |] eqn:Hfield; try done.
    cbn in Hvalid. apply field_is_string in Hfield.
    rewrite (post_records (mkRequest id b) s w Hfield Hvalid).
    destruct (coerce (body (mkRequest id b))); [| done].
    destruct (online w); [| done].
    destruct (find_record s (records w)) eqn:Hfind; [done |].
    by apply store_ok_insert. }
  split.
  { destruct (is_hex24 id) eqn:Hid; [| by rewrite put_invalid_id].
    rewrite (put_records id b w Hid).
    destruct (coerce b); [| done].
    destruct (online w); [| done].
    destruct (find_record id (records w)) eqn:Hfind; [| done].
    by eapply store_ok_replace. }
  destruct (is_hex24 id) eqn:Hid; [| by rewrite delete_invalid_id].
  destruct (online w) eqn:Hon.
  - destruct (find_record id (records w)) eqn:Hfind.
    + rewrite (delete_deleted id b w _ Hon Hid Hfind).
      by eapply store_ok_remove.
    + by rewrite (delete_not_found id b w Hon Hid Hfind).
  - unfold_handler. rewrite Hid. cbn. by rewrite Hon.
Qed.

(** ** Worked examples *)

Example parseFloat_decimal :
  parseFloat (JStr "  -12.50 EUR")
  = Normal (Finite true 7036874417766400 (-49)).
Proof. reflexivity. Qed.

Example parseFloat_tenth :
  parseFloat (JStr "0.1") = Normal (Finite false 7205759403792794 (-56)).
Proof. reflexivity. Qed.

Example parseFloat_overflow :
  parseFloat (JStr "1e999") = Normal (Infinity false).
Proof. reflexivity. Qed.

Example parseFloat_largest :
  parseFloat (JStr "1.7976931348623157e308")
  = Normal (Finite false 9007199254740991 971).
Proof. reflexivity. Qed.

Example parseFloat_text : parseFloat (JStr "abc") = Normal NaN.
Proof. reflexivity. Qed.

Example parseFloat_array :
  parseFloat (JArr [JStr "3.5"; JNum NaN])
  = Normal (Finite false 7881299347898368 (-51)).
Proof. reflexivity. Qed.

Example parseFloat_object : parseFloat (JObj [("a", JNull)]) = Normal NaN.
Proof. reflexivity. Qed.

Example parseFloat_object_with_toString :
  parseFloat (JObj [("toString", JNum (Finite false 1 0))]) = Throw TypeError.
Proof. reflexivity. Qed.

Example parseFloat_array_with_such_object :
  parseFloat (JArr [JStr "1"; JObj [("toString", JNull)]]) = Throw TypeError.
Proof. reflexivity. Qed.

Example newDate_iso :
  newDate (H:=strict_host) (JStr "2023-06-01T12:30:00.500Z")
  = Normal (TimeValue 1685622600500).
Proof. reflexivity. Qed.

Example newDate_not_a_day :
  parse_iso_utc "2023-02-29" = None.
Proof. reflexivity. Qed.

Example newDate_out_of_range :
  newDate (H:=strict_host) (JNum (Finite false 1 60)) = Normal InvalidDate.
Proof. reflexivity. Qed.

Example newDate_object_with_toString :
  newDate (H:=strict_host) (JObj [("toString", JStr "2023-06-01")])
  = Throw TypeError.
Proof. reflexivity. Qed.

Example post_with_throwing_amount :
  post_transaction (H:=strict_host) (mkRequest "" throwing_body) empty_world
  = (Normal (InternalFailure "Failed to create transaction"), empty_world).
Proof. reflexivity. Qed.

Example list_after_three_creates :
  ∃ ts w',
    get_transactions (mkRequest "" ∅) after_three_creates
      = (Normal (mkResponse 200 (TransactionsJson ts)), w')
    ∧ map tx_description ts
      = [JStr "2023-06-01"; JStr "2023-03-01"; JStr "2023-01-01"].
Proof. eexists _, _. split; reflexivity. Qed.

(** * Further properties of the handlers *)

(** ** What decides the status of an answer *)

Ltac split_cases :=
  repeat match goal with
         | |- context [online ?w] => destruct (online w) eqn:?
         | |- context [find_record ?i ?rs] => destruct (find_record i rs) eqn:?
         end; cbn.

Ltac close_table :=
  repeat split; intros;
  repeat match goal with
         | H : _ ∧ _ |- _ => destruct H
         | H : _ ∨ _ |- _ => destruct H
         | H : ∃ _, _ |- _ => destruct H
         | H : is_Some None |- _ => by apply is_Some_None in H
         end;
  simplify_eq; try done;
  try match goal with
      | H : is_Some ?x, E : ?x = None |- _ =>
          rewrite E in H; by apply is_Some_None in H
      end;
  eauto.

(** X1. Get always answers, and its status is decided by three tests: 400
    exactly when the [id] fails the format check, 500 exactly when the [id]
    passes and the store cannot be reached, 404 exactly when the store is
    reached and holds nothing under the [id], and 200 exactly when it holds
    a transaction under it. *)
Theorem get_status_table (id : string) (b : gmap string JsValue) (w : World) :
  ∃ r w',
    answers (get_transaction (mkRequest id b)) w r w'
    ∧ (status r = 400 ↔ isValidObjectId (JStr id) = false)
    ∧ (status r = 500 ↔
         isValidObjectId (JStr id) = true ∧ online w = false)
    ∧ (status r = 404 ↔
         isValidObjectId (JStr id) = true ∧ online w = true
         ∧ find_record id (records w) = None)
    ∧ (status r = 200 ↔
         isValidObjectId (JStr id) = true ∧ online w = true
         ∧ is_Some (find_record id (records w))).
Proof.
  unfold answers. unfold_handler.
  destruct (is_hex24 id) eqn:Hid; cbn; split_cases;
    eexists _, _; (split; [reflexivity |]); cbn; close_table.
Qed.



(** X4. Delete always answers, with 400 exactly when the [id] fails the
    format check, 500 exactly when it passes and the store cannot be
    reached, 404 exactly when the reached store holds nothing under the
    [id], and 200 exactly when it holds a transaction under it. *)
Theorem delete_status_table (id : string) (b : gmap string JsValue)
    (w : World) :
  ∃ r w',
    answers (delete_transaction (mkRequest id b)) w r w'
    ∧ (status r = 400 ↔ isValidObjectId (JStr id) = false)
    ∧ (status r = 500 ↔
         isValidObjectId (JStr id) = true ∧ online w = false)
    ∧ (status r = 404 ↔
         isValidObjectId (JStr id) = true ∧ online w = true
         ∧ find_record id (records w) = None)
    ∧ (status r = 200 ↔
         isValidObjectId (JStr id) = true ∧ online w = true
         ∧ is_Some (find_record id (records w))).
Proof.
  unfold answers. unfold_handler.
  destruct (is_hex24 id) eqn:Hid; cbn; split_cases;
    eexists _, _; (split; [reflexivity |]); cbn; close_table.
Qed.

(** ** Failures of the store *)

(** X5. When the store cannot be reached, every handler that gets as far
    as its persistence call (the [id] passes validation and, for Create and
    Update, the coercion of the body completes) answers 500 with the message
    of its own [catch] block, after that one call, and the store is as it
    was.  A Create or Update whose coercion throws gets the same answer
    without a call. *)
Theorem unreachable_store_answers `{Host} (req : Request) (w : World) :
  online w = false →
  let id := params_id req in
  let body_id := field (body req) "id" in
  answers (get_transactions req) w
    (InternalFailure "Failed to fetch transactions") (issue FindMany w)
  ∧ (isValidObjectId (JStr id) = true →
     answers (get_transaction req) w
       (InternalFailure "Failed to fetch transaction")
       (issue (FindUnique id) w)
     ∧ answers (delete_transaction req) w
         (InternalFailure "Failed to delete transaction")
         (issue (Delete id) w)
     ∧ (∀ data, coerce (body req) = Normal data →
        answers (put_transaction req) w
          (InternalFailure "Failed to update transaction")
          (issue (Update id data) w))
     ∧ (∀ e, coerce (body req) = Throw e →
        answers (put_transaction req) w
          (InternalFailure "Failed to update transaction") w))
  ∧ (ToBoolean body_id = true → isValidObjectId body_id = true →
     (∀ data, coerce (body req) = Normal data →
      answers (post_transaction req) w
        (InternalFailure "Failed to create transaction")
        (issue (Create body_id data) w))
     ∧ (∀ e, coerce (body req) = Throw e →
        answers (post_transaction req) w
          (InternalFailure "Failed to create transaction") w)).
Proof.
  intros Hoff id body_id. subst id body_id. unfold answers.
  split; [unfold_handler; by rewrite Hoff |].
  split.
  - destruct req as [id b]. cbn [params_id body]. intros Hid. cbn in Hid.
    split; [unfold_handler; rewrite Hid; cbn; by rewrite Hoff |].
    split; [unfold_handler; rewrite Hid; cbn; by rewrite Hoff |].
    split; intros ? Hdata; by rewrite put_closed_form, Hid, Hdata, ?Hoff.
  - intros Htruthy Hid.
    split; intros ? Hdata; rewrite post_closed_form; cbn zeta;
      by rewrite Htruthy, Hid, Hdata, ?Hoff.
Qed.

Lemma unreachable_store_answers_witness :
  let w := mkWorld [sample_tx] false [] in
  answers (get_transactions (mkRequest sample_id sample_body)) w
    (InternalFailure "Failed to fetch transactions") (issue FindMany w)
  ∧ answers (post_transaction (H:=strict_host)
               (mkRequest sample_id sample_body)) w
      (InternalFailure "Failed to create transaction")
      (mkWorld [sample_tx] false [Create (JStr sample_id) sample_data])
  ∧ answers (post_transaction (H:=strict_host)
               (mkRequest sample_id throwing_body)) w
      (InternalFailure "Failed to create transaction") w.
Proof.
  intros w.
  destruct (unreachable_store_answers (H:=strict_host)
              (mkRequest sample_id sample_body) w eq_refl)
    as (Hlist & _ & Hpost).
  destruct (unreachable_store_answers (H:=strict_host)
              (mkRequest sample_id throwing_body) w eq_refl)
    as (_ & _ & Hthrow).
  split; [exact Hlist |].
  split; [exact (proj1 (Hpost eq_refl eq_refl) sample_data eq_refl) |].
  exact (proj2 (Hthrow eq_refl eq_refl) TypeError eq_refl).
Defined.

(** ** Calls and effects *)

Ltac handler_cases :=
  unfold answers, serve; unfold_handler; unfold parseFloat, newDate;
  repeat case_match; simplify_eq/=.

(** X6. Serving a request issues at most one persistence call, added at
    the end of the log, and never changes whether the store can be reached;
    List always issues exactly one. *)
Theorem at_most_one_call `{Host} (r : Route) (req : Request) (w : World) :
  let w' := (serve r req w).2 in
  online w' = online w
  ∧ (calls w' = calls w ∨ ∃ c, calls w' = calls w ++ [c])
  ∧ (r = GET_transactions → calls w' = calls w ++ [FindMany]).
Proof.
  destruct r; handler_cases; repeat split; eauto; done.
Qed.

(** X7. An answer with an error status (400 and above) leaves the store
    exactly as it was, and so do List and Get whatever they answer: only a
    Create answered 201 and an Update or Delete answered 200 can change
    what is stored. *)
Theorem failures_and_reads_keep_store `{Host} (r : Route) (req : Request)
    (w w' : World) (res : Response) :
  answers (serve r req) w res w' →
  400 ≤ status res ∨ r = GET_transactions ∨ r = GET_transaction →
  records w' = records w.
Proof.
  intros Hrun Hcase. revert Hrun.
  destruct r; handler_cases; intros [= <- <-]; cbn in *;
    try done; destruct Hcase as [? | [? | ?]]; (done || lia).
Qed.

Lemma failures_and_reads_keep_store_witness :
  records (post_transaction (H:=strict_host) (mkRequest "" sample_body)
             sample_world).2 = [sample_tx].
Proof.
  apply (failures_and_reads_keep_store (H:=strict_host) POST_transactions
           (mkRequest "" sample_body) sample_world _ DuplicateIdentifier).
  - reflexivity.
  - left. cbn. lia.
Defined.

(** ** What a handler reads of the request *)

(** X8. A handler reads only what it destructures.  List ignores the
    request, Get and Delete ignore the body, Update reads the [:id] of the
    path and the amount, date and description of the body (so an [id] in the
    body of an Update is ignored), and Create reads those three and the [id]
    of the body but not the path. *)
Theorem handlers_read_only_their_inputs `{Host} (id id' : string)
    (b b' : gmap string JsValue) (w : World) :
  field b "amount" = field b' "amount" →
  field b "date" = field b' "date" →
  field b "description" = field b' "description" →
  get_transactions (mkRequest id b) w = get_transactions (mkRequest id' b') w
  ∧ get_transaction (mkRequest id b) w = get_transaction (mkRequest id b') w
  ∧ delete_transaction (mkRequest id b) w
    = delete_transaction (mkRequest id b') w
  ∧ put_transaction (mkRequest id b) w = put_transaction (mkRequest id b') w
  ∧ (field b "id" = field b' "id" →
     post_transaction (mkRequest id b) w
     = post_transaction (mkRequest id' b') w).
Proof.
  intros Hamount Hdate Hdescription.
  repeat split; try reflexivity.
  - unfold_handler. by rewrite Hamount, Hdate, Hdescription.
  - intros Hid. unfold_handler.
    by rewrite Hamount, Hdate, Hdescription, Hid.
Qed.

Lemma handlers_read_only_their_inputs_witness :
  put_transaction (H:=strict_host) (mkRequest sample_id update_body)
    sample_world
  = put_transaction (H:=strict_host)
      (mkRequest sample_id (<["id" := JStr other_id]> update_body))
      sample_world.
Proof.
  apply (handlers_read_only_their_inputs (H:=strict_host) sample_id sample_id
           update_body (<["id" := JStr other_id]> update_body) sample_world);
    reflexivity.
Defined.

(** ** How the operations compose *)




Lemma find_record_remove_ne id id' rs :
  id' ≠ id → find_record id' (remove_record id rs) = find_record id' rs.
Proof.
  intros Hne. induction rs as [| t rs IH]; cbn; [done |].
  destruct (String.eqb_spec (tx_id t) id) as [Heq | Hneq]; cbn.
  - destruct (String.eqb_spec (tx_id t) id'); [congruence | done].
  - by rewrite IH.
Qed.

Lemma delete_records id b w :
  is_hex24 id = true →
  records (delete_transaction (mkRequest id b) w).2 =
    if online w then
      match find_record id (records w) with
      | Some _ => remove_record id (records w)
      | None => records w
      end
    else records w.
Proof.
  intros Hid. unfold_handler. rewrite Hid. cbn.
  destruct (online w); [destruct (find_record id (records w)) |]; done.
Qed.







(** ** Invariants over sequences of requests *)

Lemma serve_preserves_store_ok `{Host} r req w :
  store_ok (records w) → store_ok (records (serve r req w).2).
Proof.
  intros Hok.
  destruct (handlers_preserve_store_ok req w Hok) as (? & ? & ? & ? & ?).
  by destruct r.
Qed.

Lemma serve_calls_bound `{Host} r req w :
  online (serve r req w).2 = online w
  ∧ (length (calls (serve r req w).2) ≤ S (length (calls w)))%nat.
Proof.
  destruct r; handler_cases; rewrite ?length_app; cbn; split; (done || lia).
Qed.

(** X12. Whatever requests are served, in whatever order, a store whose
    identifiers are pairwise distinct and well formed stays so, and [n]
    requests add at most [n] persistence calls to the log: nothing is ever
    retried. *)
Theorem served_requests_keep_invariants `{Host}
    (rs : list (Route * Request)) (w : World) :
  store_ok (records w) →
  store_ok (records (serve_all rs w))
  ∧ online (serve_all rs w) = online w
  ∧ (length (calls (serve_all rs w)) ≤ length (calls w) + length rs)%nat.
Proof.
  revert w. induction rs as [| [r req] rs IH]; intros w Hok; cbn.
  - split; [done | split; [done | lia]].
  - destruct (IH (serve r req w).2 (serve_preserves_store_ok r req w Hok))
      as (Hok' & Hon & Hlen).
    destruct (serve_calls_bound r req w) as [Hon1 Hlen1].
    split; [done | split; [congruence | lia]].
Qed.

Lemma served_requests_keep_invariants_witness :
  let rs := [(POST_transactions, dated_request sample_id "2023-01-01");
             (POST_transactions, dated_request sample_id "2023-06-01");
             (PUT_transaction, mkRequest sample_id update_body);
             (GET_transactions, mkRequest "" ∅);
             (DELETE_transaction, mkRequest other_id ∅)] in
  store_ok (records (serve_all (H:=strict_host) rs empty_world))
  ∧ online (serve_all (H:=strict_host) rs empty_world) = true
  ∧ (length (calls (serve_all (H:=strict_host) rs empty_world)) ≤ 0 + 5)%nat.
Proof.
  intros rs.
  apply (served_requests_keep_invariants (H:=strict_host) rs empty_world).
  split; [apply NoDup_nil_2 | apply Forall_nil_2].
Defined.

(** ** What a request can touch *)

(** X13. A request touches at most the transaction it names: whatever the
    route and whatever the answer, every other identifier resolves after
    the request to what it resolved to before. *)
Theorem other_ids_untouched `{Host} (r : Route) (req : Request) (w : World)
    (id' : string) :
  target r req ≠ JStr id' →
  find_record id' (records (serve r req w).2) = find_record id' (records w).
Proof.
  intros Hother. destruct r; cbn [serve target] in *.
  - by handler_cases.
  - by handler_cases.
  - destruct (ToBoolean (field (body req) "id")) eqn:Htruthy;
      [| by rewrite post_falsy_id].
    destruct (isValidObjectId (field (body req) "id")) eqn:Hvalid;
      [| by rewrite post_invalid_id].
    destruct (field (body req) "id") as [| | | | s | |] eqn:Hfield; try done.
    cbn in Hvalid. apply field_is_string in Hfield.
    rewrite (post_records req s w Hfield Hvalid).
    destruct (coerce (body req)); [| done].
    destruct (online w); [| done].
    destruct (find_record s (records w)) eqn:Hfind; [done |].
    rewrite find_record_app. destruct (find_record id' (records w)); [done |].
    cbn. destruct (String.eqb_spec s id'); [congruence | done].
  - destruct req as [id b]. cbn in Hother.
    destruct (is_hex24 id) eqn:Hid; [| by rewrite put_invalid_id].
    rewrite (put_records id b w Hid).
    destruct (coerce b) as [data |]; [| done].
    destruct (online w); [| done].
    destruct (find_record id (records w)) eqn:Hfind; [| done].
    apply (find_record_replace id (records w) t (record_of id data) Hfind
             eq_refl).
    congruence.
  - destruct req as [id b]. cbn in Hother.
    destruct (is_hex24 id) eqn:Hid; [| by rewrite delete_invalid_id].
    rewrite (delete_records id b w Hid).
    destruct (online w); [| done].
    destruct (find_record id (records w)) eqn:Hfind; [| done].
    apply find_record_remove_ne. congruence.
Qed.

Lemma other_ids_untouched_witness :
  find_record "0000000000000000000000a1"
    (records (serve (H:=strict_host) DELETE_transaction
                (mkRequest "0000000000000000000000a2" ∅) example_world).2)
  = Some tx_jan.
Proof.
  apply (other_ids_untouched (H:=strict_host) DELETE_transaction
           (mkRequest "0000000000000000000000a2" ∅) example_world
           "0000000000000000000000a1").
  discriminate.
Defined.

Lemma length_replace_record id t rs :
  length (replace_record id t rs) = length rs.
Proof.
  induction rs as [| t0 rs IH]; cbn; [done |].
  destruct (String.eqb (tx_id t0) id); cbn; congruence.
Qed.

Lemma length_remove_record id rs t :
  find_record id rs = Some t →
  S (length (remove_record id rs)) = length rs.
Proof.
  induction rs as [| t0 rs IH]; cbn; [done |].
  destruct (String.eqb (tx_id t0) id); cbn; [done |].
  intros Hfind. by rewrite IH.
Qed.

(** X14. The number of stored transactions changes only on success: a
    Create answered 201 adds exactly one, a Delete answered 200 removes
    exactly one, and every other answer, on every route, leaves the number
    as it was. *)
Theorem store_size_accounting `{Host} (r : Route) (req : Request)
    (w w' : World) (res : Response) :
  answers (serve r req) w res w' →
  length (records w') =
    if decide (r = POST_transactions ∧ status res = 201)
    then S (length (records w))
    else if decide (r = DELETE_transaction ∧ status res = 200)
    then pred (length (records w))
    else length (records w).
Proof.
  intros Hrun. revert Hrun.
  destruct r; handler_cases; intros [= <- <-]; cbn;
    repeat case_decide; destruct_and?; try done;
    rewrite ?length_app, ?length_replace_record; cbn; try lia;
    try (exfalso; naive_solver).
  erewrite <- (length_remove_record (params_id req) (records w)); done.
Qed.

Lemma store_size_accounting_witness :
  length (records (serve (H:=strict_host) DELETE_transaction
                     (mkRequest "0000000000000000000000a2" ∅)
                     example_world).2) = 2%nat.
Proof.
  apply (store_size_accounting (H:=strict_host) DELETE_transaction
           (mkRequest "0000000000000000000000a2" ∅) example_world _ Deleted).
  reflexivity.
Defined.

(** ** What an answer carries *)

(** X15. Whenever an answer carries a transaction (Get and Update with
    200, Create with 201), it is the transaction the request names: its
    [id] is the one of the request and passes the format check, and it is
    what the store holds under that [id] once the request is served. *)
Theorem answered_transaction_is_stored `{Host} (r : Route) (req : Request)
    (w w' : World) (st : Z) (t : Transaction) :
  answers (serve r req) w (mkResponse st (TransactionJson t)) w' →
  target r req = JStr (tx_id t)
  ∧ isValidObjectId (JStr (tx_id t)) = true
  ∧ find_record (tx_id t) (records w') = Some t
  ∧ (r = POST_transactions ∧ st = 201
     ∨ (r = GET_transaction ∨ r = PUT_transaction) ∧ st = 200).
Proof.
  intros Hrun. revert Hrun.
  destruct r; handler_cases; intros ?; simplify_eq/=;
    repeat match goal with
           | Hv : negb (is_hex24 _) = false |- _ =>
               apply negb_false_iff in Hv
           end.
  - match goal with Hf : find_record _ _ = Some _ |- _ =>
      pose proof (find_record_id _ _ _ Hf) as Hid end.
    rewrite Hid.
    split; [done |]. split; [done |]. split; [done |].
    right. split; [by left | done].
  - split; [done |]. split; [done |].
    split; [by apply find_record_insert |].
    left. by split.
  - match goal with Hf : find_record _ _ = Some ?old |- _ =>
      pose proof (find_record_id _ _ _ Hf) as Hid;
      destruct (find_record_replace _ _ _
                  (mkTransaction (tx_id old)
                     (parseFloat_result (field (body req) "amount"))
                     (newDate_result (field (body req) "date"))
                     (field (body req) "description")) Hf Hid)
        as [Hnew _]
    end.
    rewrite Hid.
    split; [done |]. split; [done |].
    split; [by rewrite Hid in Hnew |].
    right. split; [by right | done].
Qed.

Lemma answered_transaction_is_stored_witness :
  target PUT_transaction (mkRequest "0000000000000000000000a2" update_body)
  = JStr "0000000000000000000000a2"
  ∧ isValidObjectId (JStr "0000000000000000000000a2") = true
  ∧ find_record "0000000000000000000000a2"
      (records (put_transaction (H:=strict_host)
                  (mkRequest "0000000000000000000000a2" update_body)
                  example_world).2)
    = Some (record_of "0000000000000000000000a2" update_data)
  ∧ (PUT_transaction = POST_transactions ∧ 200 = 201
     ∨ (PUT_transaction = GET_transaction ∨ PUT_transaction = PUT_transaction)
       ∧ 200 = 200).
Proof.
  apply (answered_transaction_is_stored (H:=strict_host) PUT_transaction
           (mkRequest "0000000000000000000000a2" update_body) example_world
           _ 200 (record_of "0000000000000000000000a2" update_data)).
  reflexivity.
Defined.

(** ** Configuration *)

(** X16. The port is never a falsy value: it is the number 3001 exactly
    when the environment variable is unset or empty, and the variable's own
    text in every other case. *)
Theorem PORT_fallback (env_PORT : option string) :
  ToBoolean (PORT env_PORT) = true
  ∧ (PORT env_PORT = JNum (Finite false 3001 0)
     ↔ env_PORT = None ∨ env_PORT = Some "")
  ∧ (∀ s, env_PORT = Some s → s ≠ "" → PORT env_PORT = JStr s).
Proof.
  unfold PORT. destruct env_PORT as [s |]; cbn.
  - destruct (String.eqb_spec s "") as [-> | Hne]; cbn.
    + repeat split; eauto. by intros s [= <-].
    + split; [by apply negb_true_iff, String.eqb_neq |].
      split; [| by intros s' [= <-]].
      split; [done | intros [? | [= ->]]; done].
  - repeat split; eauto. done.
Qed.
